(** * Theme preference store and picker control

    A shallow embedding of the React theme provider (ThemeProvider, useTheme)
    and of the two ThemeToggle dropdown components, with the browser state
    they act on: localStorage, the dark-colour-scheme media query, the class
    list of the document root and the rendered element tree of the picker.

    React state cells, the browser objects and the registered listeners are
    threaded through a small state monad; a render followed by its effects is
    one [commit], and [settle] repeats commits until the rendered values agree
    with the state cells. *)

From stdpp Require Import base gmap strings list fin_maps.

Set Warnings "-register-all".
Open Scope string_scope.

(** ** Data model *)

(** [type Theme = 'light' | 'dark' | 'system'] *)
Inductive Theme := Light | Dark | System.

(** The type ['light' | 'dark'] of [resolvedTheme]. *)
Inductive ResolvedTheme := RLight | RDark.

Global Instance Theme_eq_dec : EqDecision Theme.
Proof. solve_decision. Defined.

Global Instance ResolvedTheme_eq_dec : EqDecision ResolvedTheme.
Proof. solve_decision. Defined.

(** The string a [Theme] is at run time. *)
Definition theme_name (t : Theme) : string :=
  match t with Light => "light" | Dark => "dark" | System => "system" end.

Definition resolved_name (r : ResolvedTheme) : string :=
  match r with RLight => "light" | RDark => "dark" end.

(** ['light' | 'dark'] is a subtype of [Theme]. *)
Definition theme_of_resolved (r : ResolvedTheme) : Theme :=
  match r with RLight => Light | RDark => Dark end.

(** Reading a run-time string back at type [Theme] (the cast
    [as Theme | null] of the source does no check; the check is the
    [includes] test of the restore effect). *)
Definition theme_of_string (s : string) : option Theme :=
  if decide (s = "light") then Some Light
  else if decide (s = "dark") then Some Dark
  else if decide (s = "system") then Some System
  else None.

(** The array literal [['light', 'dark', 'system']] of the restore effect. *)
Definition themeValues : list string := ["light"; "dark"; "system"].

(** Truthiness of a string: only the empty string is falsy. *)
Definition truthy (s : string) : bool := negb (bool_decide (s = "")).

(** [Array.prototype.includes] on strings. *)
Definition includes (l : list string) (s : string) : bool := bool_decide (s ∈ l).

(** Icons of lucide-react used by the picker. *)
Inductive Icon := Sun | Moon | Monitor.

Global Instance Icon_eq_dec : EqDecision Icon.
Proof. solve_decision. Defined.

(** Elements of the page: those the picker renders, and any other node of
    the document. *)
Inductive NodeId :=
| RootDiv                                   (* <div className="relative" ref={dropdownRef}> *)
| ToggleButton                              (* the button with aria-label "Toggle theme" *)
| IconSvg (owner : option Theme) (i : Icon) (* an icon, of the toggle button or of an option *)
| MenuDiv                                   (* the absolutely positioned list *)
| MenuInner                                 (* <div className="py-1"> *)
| OptionButton (value : Theme)
| OptionLabel (value : Theme) (text : string)
| OptionCheck (value : Theme)               (* the check mark of the selected option *)
| Outside (n : nat).                        (* a node that is not part of the control *)

Global Instance NodeId_eq_dec : EqDecision NodeId.
Proof. solve_decision. Defined.

(** A rendered element with its children. *)
Inductive Node := El (id : NodeId) (children : list Node).

(** [Node.contains]: the node itself or one of its descendants. *)
Fixpoint contains (n : Node) (other : NodeId) : bool :=
  match n with
  | El id children =>
      bool_decide (id = other) || existsb (fun c => contains c other) children
  end.

(** ** State *)

Record App := mkApp {
  (* React state of ThemeProvider *)
  theme : Theme;
  resolvedTheme : ResolvedTheme;
  (* theme, resolvedTheme and isOpen of the last committed render, which the
     closures of that render captured; None before the mount *)
  rendered : option (Theme * ResolvedTheme * bool);
  (* browser *)
  localStorage : gmap string string;
  prefersDark : bool;            (* matchMedia('(prefers-color-scheme: dark)').matches *)
  classList : list string;       (* document.documentElement.classList *)
  changeHandler : option Theme;  (* the registered 'change' handler, by the theme its closure captured *)
  (* React state of ThemeToggle *)
  isOpen : bool;
  (* dropdownRef.current: null, or the root element of the picker with the
     children React gave it in the last commit *)
  dropdownRef : option Node
}.

(** ** A state monad over [App] *)

Definition M (A : Type) : Type := App -> A * App.

Definition ret {A} (a : A) : M A := fun s => (a, s).
Definition bind {A B} (m : M A) (k : A -> M B) : M B :=
  fun s => let '(a, s') := m s in k a s'.
Definition exec {A} (m : M A) (s : App) : App := snd (m s).

Declare Scope app_scope.
Delimit Scope app_scope with app.
Notation "x <- m ;; k" := (bind m (fun x => k))
  (at level 100, m at next level, right associativity) : app_scope.
Notation "m ;; k" := (bind m (fun _ => k))
  (at level 100, right associativity) : app_scope.
Abbreviation skip := (ret tt).
Open Scope app_scope.

Definition get : M App := fun s => (s, s).
Definition modify (f : App -> App) : M unit := fun s => (tt, f s).

(** State setters of [useState] and the browser calls. *)

Definition setThemeState (t : Theme) : M unit :=
  modify (fun s => mkApp t (resolvedTheme s) (rendered s) (localStorage s)
    (prefersDark s) (classList s) (changeHandler s) (isOpen s) (dropdownRef s)).

Definition setResolvedTheme (r : ResolvedTheme) : M unit :=
  modify (fun s => mkApp (theme s) r (rendered s) (localStorage s)
    (prefersDark s) (classList s) (changeHandler s) (isOpen s) (dropdownRef s)).

Definition setRendered (v : option (Theme * ResolvedTheme * bool)) : M unit :=
  modify (fun s => mkApp (theme s) (resolvedTheme s) v (localStorage s)
    (prefersDark s) (classList s) (changeHandler s) (isOpen s) (dropdownRef s)).

Definition localStorage_getItem (key : string) : M (option string) :=
  fun s => (localStorage s !! key, s).

Definition localStorage_setItem (key value : string) : M unit :=
  modify (fun s => mkApp (theme s) (resolvedTheme s) (rendered s)
    (<[key := value]> (localStorage s))
    (prefersDark s) (classList s) (changeHandler s) (isOpen s) (dropdownRef s)).

Definition matchMedia_matches : M bool := fun s => (prefersDark s, s).

Definition setPrefersDark (b : bool) : M unit :=
  modify (fun s => mkApp (theme s) (resolvedTheme s) (rendered s) (localStorage s)
    b (classList s) (changeHandler s) (isOpen s) (dropdownRef s)).

Definition setClassList (f : list string -> list string) : M unit :=
  modify (fun s => mkApp (theme s) (resolvedTheme s) (rendered s) (localStorage s)
    (prefersDark s) (f (classList s)) (changeHandler s) (isOpen s) (dropdownRef s)).

Definition setChangeHandler (h : option Theme) : M unit :=
  modify (fun s => mkApp (theme s) (resolvedTheme s) (rendered s) (localStorage s)
    (prefersDark s) (classList s) h (isOpen s) (dropdownRef s)).

Definition setIsOpen (b : bool) : M unit :=
  modify (fun s => mkApp (theme s) (resolvedTheme s) (rendered s) (localStorage s)
    (prefersDark s) (classList s) (changeHandler s) b (dropdownRef s)).

Definition setDropdownRef (r : option Node) : M unit :=
  modify (fun s => mkApp (theme s) (resolvedTheme s) (rendered s) (localStorage s)
    (prefersDark s) (classList s) (changeHandler s) (isOpen s) r).

(** [DOMTokenList.remove(...tokens)] and [DOMTokenList.add(token)]. *)
Definition classList_remove (tokens : list string) (cl : list string) : list string :=
  filter (fun c => c ∉ tokens) cl.

Definition classList_add (token : string) (cl : list string) : list string :=
  if decide (token ∈ cl) then cl else cl ++ [token].

(** ** ThemeProvider *)

Module ThemeProvider.

(** First effect (dependencies []): restore the preference from storage. *)
Definition restoreEffect : M unit :=
  savedTheme <- localStorage_getItem "theme" ;;
  match savedTheme with
  | Some v =>
      if truthy v && includes themeValues v then
        match theme_of_string v with
        | Some t => setThemeState t
        | None => skip
        end
      else skip
  | None => skip
  end.

(** [updateResolvedTheme], closed over the [theme] of the render whose
    effect defined it. *)
Definition updateResolvedTheme (theme : Theme) : M unit :=
  match theme with
  | System =>
      matches <- matchMedia_matches ;;
      let systemPreference := if matches : bool then RDark else RLight in
      setResolvedTheme systemPreference
  | Light => setResolvedTheme RLight
  | Dark => setResolvedTheme RDark
  end.

(** The 'change' handler, closed over the same [theme]. *)
Definition handler (theme : Theme) : M unit :=
  if decide (theme = System) then updateResolvedTheme theme else skip.

(** Second effect (dependencies [theme]). *)
Definition resolveEffect (theme : Theme) : M unit :=
  updateResolvedTheme theme ;;
  setChangeHandler (Some theme).

(** Its cleanup: [mediaQuery.removeEventListener('change', handler)]. *)
Definition resolveCleanup : M unit := setChangeHandler None.

(** Third effect (dependencies [resolvedTheme]). *)
Definition applyEffect (resolvedTheme : ResolvedTheme) : M unit :=
  setClassList (classList_remove ["light"; "dark"]) ;;
  setClassList (classList_add (resolved_name resolvedTheme)).

(** [setTheme], the setter handed out through the context. *)
Definition setTheme (newTheme : Theme) : M unit :=
  setThemeState newTheme ;;
  localStorage_setItem "theme" (theme_name newTheme).

End ThemeProvider.

(** ** The context and its accessor *)

(** [interface ThemeContextType] *)
Record ThemeContextType := {
  ctx_theme : Theme;
  ctx_setTheme : Theme -> M unit;
  ctx_resolvedTheme : ResolvedTheme
}.

(** The object [{ theme, setTheme, resolvedTheme }] given to
    [ThemeContext.Provider]. *)
Definition providerValue (theme : Theme) (resolvedTheme : ResolvedTheme)
  : ThemeContextType :=
  {| ctx_theme := theme;
     ctx_setTheme := ThemeProvider.setTheme;
     ctx_resolvedTheme := resolvedTheme |}.

(** Thrown errors. *)
Inductive Result (A : Type) :=
| Ok (a : A)
| Throw (message : string).
Arguments Ok {A} a.
Arguments Throw {A} message.

(** The components above a consumer, innermost first. [ThemeContext] is not
    exported, so the only component that provides it is [ThemeProvider]. *)
Inductive Component :=
| ThemeProviderC (value : ThemeContextType)
| OtherC.

(** [useContext(ThemeContext)]: the value of the nearest provider, or the
    default [undefined] given to [createContext]. *)
Fixpoint useContext (ancestors : list Component) : option ThemeContextType :=
  match ancestors with
  | [] => None
  | ThemeProviderC value :: _ => Some value
  | OtherC :: ancestors' => useContext ancestors'
  end.

Definition useTheme (ancestors : list Component) : Result ThemeContextType :=
  let context := useContext ancestors in
  match context with
  | None => Throw "useTheme must be used within a ThemeProvider"
  | Some context => Ok context
  end.

(** Whether a consumer is in the scope of a [ThemeProvider]. *)
Definition inProviderScope (ancestors : list Component) : Prop :=
  exists value, ThemeProviderC value ∈ ancestors.

(** ** The picker of src/components/ui/ThemeToggle.tsx *)

Module ThemeToggle.

Record ThemeOption := { value : Theme; label : string; icon : Icon }.

Definition themeOptions : list ThemeOption :=
  [ {| value := Light; label := "Light"; icon := Sun |};
    {| value := Dark; label := "Dark"; icon := Moon |};
    {| value := System; label := "System"; icon := Monitor |} ].

(** [const currentIcon = resolvedTheme === 'dark' ? Moon : Sun] *)
Definition currentIcon (ctx : ThemeContextType) : Icon :=
  if decide (ctx_resolvedTheme ctx = RDark) then Moon else Sun.

(** The [onClick] of an option. *)
Definition optionClick (ctx : ThemeContextType) (option : ThemeOption) : M unit :=
  ctx_setTheme ctx (value option) ;;
  setIsOpen false.

Definition renderOption (ctx : ThemeContextType) (option : ThemeOption) : Node :=
  let isSelected := bool_decide (ctx_theme ctx = value option) in
  El (OptionButton (value option))
    ([ El (IconSvg (Some (value option)) (icon option)) [];
       El (OptionLabel (value option) (label option)) [] ]
     ++ (if isSelected then [El (OptionCheck (value option)) []] else [])).

(** The returned JSX, as an element tree. *)
Definition render (ctx : ThemeContextType) (isOpen : bool) : Node :=
  El RootDiv
    (El ToggleButton [El (IconSvg None (currentIcon ctx)) []]
     :: (if isOpen then [El MenuDiv (map (renderOption ctx) themeOptions)] else [])).

End ThemeToggle.

(** ** The picker of the second ThemeToggle source (part_001) *)

Module ThemeToggle001.

Definition handleThemeChange (ctx : ThemeContextType) (newTheme : Theme) : M unit :=
  ctx_setTheme ctx newTheme ;;
  setIsOpen false.

Definition getIcon (ctx : ThemeContextType) : Icon :=
  match ctx_theme ctx with
  | Light => Sun
  | Dark => Moon
  | System => Monitor
  end.

Definition render (ctx : ThemeContextType) (isOpen : bool) : Node :=
  El RootDiv
    (El ToggleButton [El (IconSvg None (getIcon ctx)) []]
     :: (if isOpen then
           [El MenuDiv
              [El MenuInner
                 [ El (OptionButton Light)
                     [El (IconSvg (Some Light) Sun) []; El (OptionLabel Light "Light") []];
                   El (OptionButton Dark)
                     [El (IconSvg (Some Dark) Moon) []; El (OptionLabel Dark "Dark") []];
                   El (OptionButton System)
                     [El (IconSvg (Some System) Monitor) []; El (OptionLabel System "System") []] ]]]
         else [])).

End ThemeToggle001.

(** ** The mounted application: a ThemeProvider with one picker below it *)

(** Which of the two ThemeToggle components is mounted. *)
Inductive Picker := Ui | P001.

Definition renderPicker (p : Picker) (ctx : ThemeContextType) (isOpen : bool) : Node :=
  match p with
  | Ui => ThemeToggle.render ctx isOpen
  | P001 => ThemeToggle001.render ctx isOpen
  end.

(** [handleClickOutside], the 'mousedown' listener both pickers register on
    the document in their mount effect. *)
Definition handleClickOutside (target : NodeId) : M unit :=
  s <- get ;;
  match dropdownRef s with
  | Some current =>
      if negb (contains current target) then setIsOpen false else skip
  | None => skip
  end.

(** The [onClick] that a click on [target] reaches (a click on a child of a
    button bubbles to the button), with the values the committed render
    closed over. *)
Definition onClick (p : Picker) (ctx : ThemeContextType) (isOpen : bool)
    (target : NodeId) : M unit :=
  match target with
  | ToggleButton | IconSvg None _ => setIsOpen (negb isOpen)
  | OptionButton v | IconSvg (Some v) _ | OptionLabel v _ | OptionCheck v =>
      match p with
      | Ui =>
          match list_find (fun o => ThemeToggle.value o = v) ThemeToggle.themeOptions with
          | Some (_, option) => ThemeToggle.optionClick ctx option
          | None => skip
          end
      | P001 => ThemeToggle001.handleThemeChange ctx v
      end
  | RootDiv | MenuDiv | MenuInner | Outside _ => skip
  end.

(** A click is delivered to the picker only on an element it currently
    shows. *)
Definition click (p : Picker) (target : NodeId) : M unit :=
  s <- get ;;
  match dropdownRef s, rendered s with
  | Some current, Some (theme0, resolved0, isOpen0) =>
      if contains current target
      then onClick p (providerValue theme0 resolved0) isOpen0 target
      else skip
  | _, _ => skip
  end.

(** The operating system changes its appearance: the media query changes and
    its 'change' event reaches the registered handler. *)
Definition mediaChange (dark : bool) : M unit :=
  setPrefersDark dark ;;
  s <- get ;;
  match changeHandler s with
  | Some theme0 => ThemeProvider.handler theme0
  | None => skip
  end.

(** One render and commit: React brings the picker's elements up to date,
    then runs the effects whose dependencies changed, in source order, each
    with the values of this render. *)
Definition commit (p : Picker) : M unit :=
  s <- get ;;
  let theme := theme s in
  let resolvedTheme := resolvedTheme s in
  let isOpen := isOpen s in
  setDropdownRef (Some (renderPicker p (providerValue theme resolvedTheme) isOpen)) ;;
  match rendered s with
  | None =>
      ThemeProvider.restoreEffect ;;
      ThemeProvider.resolveEffect theme ;;
      ThemeProvider.applyEffect resolvedTheme
  | Some (theme0, resolved0, _) =>
      (if decide (theme0 = theme) then skip
       else ThemeProvider.resolveCleanup ;; ThemeProvider.resolveEffect theme) ;;
      (if decide (resolved0 = resolvedTheme) then skip
       else ThemeProvider.applyEffect resolvedTheme)
  end ;;
  setRendered (Some (theme, resolvedTheme, isOpen)).

(** Nothing is left to render: the state cells are those of the last render. *)
Definition stable (s : App) : Prop :=
  rendered s = Some (theme s, resolvedTheme s, isOpen s).

Global Instance stable_dec s : Decision (stable s).
Proof. unfold stable. apply _. Defined.

(** Re-render until stable. *)
Fixpoint settle (p : Picker) (fuel : nat) : M unit :=
  match fuel with
  | O => skip
  | S fuel' =>
      s <- get ;;
      if decide (stable s) then skip else commit p ;; settle p fuel'
  end.

(** Three renders always suffice ([settle_stable], [settle_fuel]). *)
Definition flush (p : Picker) : M unit := settle p 3.

(** The state in which the provider function is first called: the [useState]
    defaults, whatever the browser holds. *)
Definition initial (storage : gmap string string) (dark : bool)
    (classes : list string) : App :=
  mkApp System RLight None storage dark classes None false None.

(** The state after the first commit alone. *)
Definition firstCommit (p : Picker) (storage : gmap string string) (dark : bool)
    (classes : list string) : App :=
  exec (commit p) (initial storage dark classes).

Definition mount (p : Picker) (storage : gmap string string) (dark : bool)
    (classes : list string) : App :=
  exec (flush p) (initial storage dark classes).

Inductive Event :=
| Click (target : NodeId)
| MouseDown (target : NodeId)
| MediaChange (dark : bool).

Definition handle (p : Picker) (e : Event) : M unit :=
  match e with
  | Click target => click p target
  | MouseDown target => handleClickOutside target
  | MediaChange dark => mediaChange dark
  end.

(** An event is handled, then React renders until stable. *)
Definition step (p : Picker) (e : Event) (s : App) : App :=
  exec (handle p e ;; flush p) s.

Inductive reachable (p : Picker) : App -> Prop :=
| reachable_mount storage dark classes :
    reachable p (mount p storage dark classes)
| reachable_step e s :
    reachable p s -> reachable p (step p e s).

Definition run (p : Picker) (es : list Event) (s : App) : App :=
  foldl (fun s e => step p e s) s es.

(** ** Closed forms and invariants used in the proofs *)

(** The theme the restore effect leaves in the state cell. *)
Definition restoredTheme (saved : option string) (current : Theme) : Theme :=
  match saved with
  | Some v =>
      if includes themeValues v then default current (theme_of_string v) else current
  | None => current
  end.

(** The value [updateResolvedTheme] hands to [setResolvedTheme]. *)
Definition resolvedOf (t : Theme) (dark : bool) : ResolvedTheme :=
  match t with
  | System => if dark then RDark else RLight
  | Light => RLight
  | Dark => RDark
  end.

(** The class list the apply effect leaves. *)
Definition applied (r : ResolvedTheme) (cl : list string) : list string :=
  classList_add (resolved_name r) (classList_remove ["light"; "dark"] cl).

(** The state a commit leaves ([commit_committed]). *)
Definition committed (p : Picker) (s : App) : App :=
  let t := theme s in
  let r := resolvedTheme s in
  let el := Some (renderPicker p (providerValue t r) (isOpen s)) in
  match rendered s with
  | None =>
      mkApp (restoredTheme (localStorage s !! "theme") t) (resolvedOf t (prefersDark s))
        (Some (t, r, isOpen s)) (localStorage s) (prefersDark s)
        (applied r (classList s)) (Some t) (isOpen s) el
  | Some (t0, r0, _) =>
      mkApp t (if decide (t0 = t) then r else resolvedOf t (prefersDark s))
        (Some (t, r, isOpen s)) (localStorage s) (prefersDark s)
        (if decide (r0 = r) then classList s else applied r (classList s))
        (if decide (t0 = t) then changeHandler s else Some t) (isOpen s) el
  end.

(** The last render already had the current [theme]. *)
Definition themeSettled (s : App) : Prop :=
  exists r o, rendered s = Some (theme s, r, o).

(** Of the two markers, exactly the one of [r] is in the class list. *)
Definition markerIs (r : ResolvedTheme) (cl : list string) : Prop :=
  forall r', resolved_name r' ∈ cl <-> r' = r.

Definition exactlyOneMarker (cl : list string) : Prop :=
  ("light" ∈ cl /\ "dark" ∉ cl) \/ ("dark" ∈ cl /\ "light" ∉ cl).

(** What holds of a mounted application between an event handler and the
    renders that follow it. *)
Definition PreInv (p : Picker) (s : App) : Prop :=
  exists t0 r0 o0,
    rendered s = Some (t0, r0, o0) /\
    markerIs r0 (classList s) /\
    (t0 = theme s ->
       changeHandler s = Some (theme s) /\
       resolvedTheme s = resolvedOf (theme s) (prefersDark s)) /\
    dropdownRef s = Some (renderPicker p (providerValue t0 r0) o0).

(** What holds of every reachable state. *)
Definition Inv (p : Picker) (s : App) : Prop :=
  stable s /\
  changeHandler s = Some (theme s) /\
  resolvedTheme s = resolvedOf (theme s) (prefersDark s) /\
  dropdownRef s
    = Some (renderPicker p (providerValue (theme s) (resolvedTheme s)) (isOpen s)) /\
  markerIs (resolvedTheme s) (classList s).

(** The icon each of the two pickers pairs with a theme value. *)
Definition iconOf (t : Theme) : Icon :=
  match t with Light => Sun | Dark => Moon | System => Monitor end.

(** The icon inside the toggle button of a rendered picker. *)
Definition toggleIcon (root : Node) : option Icon :=
  match root with
  | El RootDiv (El ToggleButton [El (IconSvg None i) []] :: _) => Some i
  | _ => None
  end.

(** Sample states: a freshly mounted picker whose list was opened by a click
    on the toggle button. *)
Definition openedUi : App := step Ui (Click ToggleButton) (mount Ui ∅ false []).
Definition opened001 : App := step P001 (Click ToggleButton) (mount P001 ∅ true []).

(** ** Definitions for the further properties *)

(** The first render of a picker: [useTheme()], then the JSX with the initial
    [isOpen] of [useState(false)]. *)
Definition mountPicker (p : Picker) (ancestors : list Component) : Result Node :=
  match useTheme ancestors with
  | Throw message => Throw message
  | Ok ctx => Ok (renderPicker p ctx false)
  end.

(** The provider unmounts: React runs the cleanups of its effects, of which
    only the resolve effect returns one. *)
Definition unmount : M unit := ThemeProvider.resolveCleanup.

(** What an event handler can have done to a state. *)
Definition handled (s s' : App) : Prop :=
  s' = s \/
  (exists b, s' = exec (setIsOpen b) s) \/
  (exists v, s' = exec (ThemeProvider.setTheme v ;; setIsOpen false) s) \/
  (exists d, theme s <> System /\ s' = exec (setPrefersDark d) s) \/
  (exists d, theme s = System /\
     s' = exec (setPrefersDark d ;; setResolvedTheme (resolvedOf System d)) s).

(** The root holds the other classes of [classes] and the marker of the last
    render. *)
Definition ClassesPre (classes : list string) (s : App) : Prop :=
  exists t0 r0 o0,
    rendered s = Some (t0, r0, o0) /\
    classList s = (classList_remove ["light"; "dark"] classes ++ [resolved_name r0])%list.

Definition rootClasses (p : Picker) (classes : list string) (s : App) : Prop :=
  Inv p s /\
  classList s
  = (classList_remove ["light"; "dark"] classes
     ++ [resolved_name (resolvedTheme s)])%list.

(** * Properties *)

(** ** Running the monad *)

Lemma exec_bind {A B} (m : M A) (k : A -> M B) (s : App) :
  exec (bind m k) s = exec (k (fst (m s))) (snd (m s)).
Proof. unfold exec, bind. destruct (m s). reflexivity. Qed.

Lemma exec_seq (m : M unit) {B} (k : M B) (s : App) :
  exec (m ;; k) s = exec k (exec m s).
Proof. rewrite exec_bind. reflexivity. Qed.

(** ** Names of themes *)

Lemma theme_of_string_name (t : Theme) : theme_of_string (theme_name t) = Some t.
Proof. destruct t; reflexivity. Qed.

Lemma theme_name_valid (t : Theme) :
  truthy (theme_name t) && includes themeValues (theme_name t) = true.
Proof. destruct t; reflexivity. Qed.

Lemma includes_themeValues (v : string) :
  includes themeValues v = true -> exists t, v = theme_name t.
Proof.
  unfold includes, themeValues. intros H%bool_decide_eq_true.
  repeat (apply elem_of_cons in H as [->|H]);
    [by exists Light | by exists Dark | by exists System |].
  by apply elem_of_nil in H.
Qed.

Lemma resolved_name_inj r r' : resolved_name r = resolved_name r' -> r = r'.
Proof. destruct r, r'; simpl; congruence. Qed.

Lemma resolved_name_marker r : resolved_name r ∈ ["light"; "dark"].
Proof. destruct r; simpl; repeat constructor. Qed.

(** ** The effects one by one *)

(** A stored string that passes the [includes] test is truthy and names a
    theme, so the restore effect is [restoredTheme]. *)
Lemma restoreEffect_exec (s : App) :
  exec ThemeProvider.restoreEffect s
  = exec (setThemeState (restoredTheme (localStorage s !! "theme") (theme s))) s.
Proof.
  unfold ThemeProvider.restoreEffect, restoredTheme.
  rewrite exec_bind. simpl. destruct s as [t r rd ls pd cl ch io dr]; simpl.
  destruct (ls !! "theme") as [v|]; [|reflexivity].
  destruct (includes themeValues v) eqn:Hv.
  - destruct (includes_themeValues _ Hv) as [u ->]. by destruct u.
  - rewrite andb_false_r. reflexivity.
Qed.

Lemma restoredTheme_valid (t current : Theme) :
  restoredTheme (Some (theme_name t)) current = t.
Proof. destruct t; reflexivity. Qed.

Lemma restoredTheme_invalid (v : string) (current : Theme) :
  v ∉ themeValues -> restoredTheme (Some v) current = current.
Proof.
  intros Hv. unfold restoredTheme, includes.
  rewrite bool_decide_eq_false_2; done.
Qed.

Lemma updateResolvedTheme_exec t s :
  exec (ThemeProvider.updateResolvedTheme t) s
  = exec (setResolvedTheme (resolvedOf t (prefersDark s))) s.
Proof. destruct t; reflexivity. Qed.

(** Whatever the class list held, the apply effect leaves exactly the marker
    of its argument. *)
Lemma applied_marker r cl : markerIs r (applied r cl).
Proof.
  intros r'. unfold applied, classList_add, classList_remove.
  pose proof (resolved_name_marker r) as Hr.
  pose proof (resolved_name_marker r') as Hr'.
  case_decide as Hin.
  - apply list_elem_of_filter in Hin as [Hn _]. done.
  - rewrite elem_of_app, list_elem_of_filter, list_elem_of_singleton.
    split.
    + intros [[Hn _]|Heq]; [done|]. by apply resolved_name_inj.
    + intros ->. by right.
Qed.

Lemma markerIs_exactlyOne r cl : markerIs r cl -> exactlyOneMarker cl.
Proof.
  intros H. unfold exactlyOneMarker.
  pose proof (H RLight) as HL. pose proof (H RDark) as HD. simpl in *.
  destruct r; [left|right]; split; try (by apply HL); try (by apply HD).
  - intros Hd. apply HD in Hd. discriminate.
  - intros Hl. apply HL in Hl. discriminate.
Qed.

(** ** Commits and the render loop *)

Section Render.
Variable p : Picker.

Lemma commit_committed s : exec (commit p) s = committed p s.
Proof.
  unfold commit. rewrite exec_bind. simpl fst. simpl snd.
  rewrite !exec_seq. unfold committed.
  destruct s as [t r rd ls pd cl ch io dr]. simpl.
  destruct rd as [[[t0 r0] o0]|].
  - rewrite exec_seq. repeat case_decide; subst;
      unfold ThemeProvider.resolveCleanup, ThemeProvider.resolveEffect,
        ThemeProvider.applyEffect;
      rewrite ?exec_seq, ?updateResolvedTheme_exec; reflexivity.
  - rewrite !exec_seq, restoreEffect_exec.
    unfold ThemeProvider.resolveEffect, ThemeProvider.applyEffect.
    rewrite ?exec_seq, ?updateResolvedTheme_exec. reflexivity.
Qed.

Lemma settle_S n s :
  exec (settle p (S n)) s
  = if decide (stable s) then s else exec (settle p n) (exec (commit p) s).
Proof.
  simpl. rewrite exec_bind. simpl. case_decide; [reflexivity|].
  apply exec_seq.
Qed.

Lemma settle_stable_id n s : stable s -> exec (settle p n) s = s.
Proof. destruct n; [reflexivity|]. rewrite settle_S. intros. by case_decide. Qed.

Lemma committed_mounted s : rendered (committed p s) <> None.
Proof. unfold committed. by destruct (rendered s) as [[[??]?]|]. Qed.

Lemma committed_themeSettled s :
  rendered s <> None -> themeSettled (committed p s).
Proof.
  unfold committed, themeSettled. destruct (rendered s) as [[[??]?]|]; [|done].
  intros _. simpl. eauto.
Qed.

Lemma committed_stable s : themeSettled s -> stable (committed p s).
Proof.
  unfold committed, themeSettled, stable. intros (r & o & ->). simpl.
  by rewrite decide_True.
Qed.

Lemma committed_theme s : rendered s <> None -> theme (committed p s) = theme s.
Proof. unfold committed. by destruct (rendered s) as [[[??]?]|]. Qed.

Lemma committed_frame s :
  localStorage (committed p s) = localStorage s /\
  prefersDark (committed p s) = prefersDark s /\
  isOpen (committed p s) = isOpen s.
Proof. unfold committed. by destruct (rendered s) as [[[??]?]|]. Qed.

(** The render loop ends: from any state, the third commit at the latest
    leaves nothing to render, and more fuel changes nothing. *)
Lemma settle_stable n s : 3 <= n -> stable (exec (settle p n) s).
Proof.
  intros Hn. destruct n as [|[|[|n]]]; try lia.
  do 3 (rewrite settle_S; case_decide; [done|]).
  rewrite !commit_committed in *.
  rewrite settle_stable_id;
    apply committed_stable, committed_themeSettled, committed_mounted.
Qed.

Lemma settle_fuel n s : 3 <= n -> exec (settle p n) s = exec (flush p) s.
Proof.
  intros Hn. unfold flush. destruct n as [|[|[|n]]]; try lia.
  rewrite !settle_S. repeat case_decide; try reflexivity.
  apply settle_stable_id. rewrite !commit_committed.
  apply committed_stable, committed_themeSettled, committed_mounted.
Qed.

Lemma flush_stable s : stable (exec (flush p) s).
Proof. by apply settle_stable. Qed.

Lemma settle_theme n s :
  rendered s <> None -> theme (exec (settle p n) s) = theme s.
Proof.
  revert s. induction n as [|n IH]; intros s Hs; [reflexivity|].
  rewrite settle_S. case_decide; [reflexivity|].
  rewrite commit_committed, IH by apply committed_mounted.
  by apply committed_theme.
Qed.

Lemma settle_frame n s :
  localStorage (exec (settle p n) s) = localStorage s /\
  prefersDark (exec (settle p n) s) = prefersDark s /\
  isOpen (exec (settle p n) s) = isOpen s.
Proof.
  revert s. induction n as [|n IH]; intros s; [done|].
  rewrite settle_S. case_decide; [done|].
  rewrite commit_committed.
  destruct (IH (committed p s)) as (-> & -> & ->). apply committed_frame.
Qed.

Lemma mount_theme storage dark classes :
  theme (mount p storage dark classes) = restoredTheme (storage !! "theme") System.
Proof.
  unfold mount, flush. rewrite settle_S, decide_False by done.
  rewrite commit_committed, settle_theme by apply committed_mounted.
  reflexivity.
Qed.

(** From the first commit on, every commit leaves exactly one marker. *)
Lemma commit_marker s :
  rendered s = None \/ exactlyOneMarker (classList s) ->
  exactlyOneMarker (classList (exec (commit p) s)).
Proof.
  rewrite commit_committed. unfold committed.
  destruct (rendered s) as [[[t0 r0] o0]|]; simpl.
  - intros [|H]; [done|]. case_decide; [done|].
    eapply markerIs_exactlyOne, applied_marker.
  - intros _. eapply markerIs_exactlyOne, applied_marker.
Qed.

End Render.

(** ** The invariant of reachable states *)

Section Invariant.
Variable p : Picker.

Lemma Inv_PreInv s : Inv p s -> PreInv p s.
Proof.
  intros (Hst & Hh & Hr & Hd & Hm). unfold stable in Hst.
  exists (theme s), (resolvedTheme s), (isOpen s). eauto.
Qed.

Lemma PreInv_stable_Inv s : PreInv p s -> stable s -> Inv p s.
Proof.
  intros (t0 & r0 & o0 & Hrd & Hm & Hh & Hd) Hst.
  unfold stable in Hst. rewrite Hrd in Hst. simplify_eq.
  destruct Hh as [Hh Hr]; [done|]. unfold Inv, stable. by repeat (split; [done|]).
Qed.

Lemma PreInv_committed s : PreInv p s -> PreInv p (committed p s).
Proof.
  intros (t0 & r0 & o0 & Hrd & Hm & Hh & Hd). unfold committed. rewrite Hrd.
  eexists _, _, _. simpl. split; [reflexivity|]. split; [|split; [|reflexivity]].
  - case_decide; [by subst|]. apply applied_marker.
  - intros _. case_decide; [by apply Hh|done].
Qed.

(** Two renders after a handler re-establish the invariant. *)
Lemma PreInv_settle n s : 2 <= n -> PreInv p s -> Inv p (exec (settle p n) s).
Proof.
  intros Hn HP. destruct n as [|[|n]]; try lia.
  rewrite settle_S. case_decide; [by apply PreInv_stable_Inv|].
  rewrite settle_S, commit_committed.
  apply PreInv_committed in HP as HP1.
  case_decide; [by apply PreInv_stable_Inv|].
  rewrite commit_committed.
  assert (stable (committed p (committed p s))) as Hst.
  { destruct HP as (t0 & r0 & o0 & Hrd & _).
    apply committed_stable, committed_themeSettled. by rewrite Hrd. }
  rewrite settle_stable_id by done.
  apply PreInv_stable_Inv; [by apply PreInv_committed|done].
Qed.

Lemma PreInv_first storage dark classes :
  PreInv p (committed p (initial storage dark classes)).
Proof.
  unfold committed, initial. simpl. exists System, RLight, false. simpl.
  split; [done|]. split; [apply applied_marker|]. split; [|done].
  by intros <-.
Qed.

Lemma Inv_mount storage dark classes : Inv p (mount p storage dark classes).
Proof.
  unfold mount, flush. rewrite settle_S, decide_False by done.
  rewrite commit_committed. apply PreInv_settle; [lia|]. apply PreInv_first.
Qed.

Lemma PreInv_setIsOpen b s : Inv p s -> PreInv p (exec (setIsOpen b) s).
Proof.
  intros (Hst & Hh & Hr & Hd & Hm). unfold stable in Hst.
  exists (theme s), (resolvedTheme s), (isOpen s). destruct s. simpl in *. eauto.
Qed.

Lemma PreInv_setTheme v b s :
  Inv p s -> PreInv p (exec (ThemeProvider.setTheme v ;; setIsOpen b) s).
Proof.
  intros (Hst & Hh & Hr & Hd & Hm). unfold stable in Hst.
  exists (theme s), (resolvedTheme s), (isOpen s). destruct s. simpl in *.
  repeat (split; [done|]). split; [|done]. intros <-. eauto.
Qed.

(** What the 'change' event does to a state whose handler closed over the
    current theme. *)
Lemma mediaChange_exec dark s :
  changeHandler s = Some (theme s) ->
  exec (mediaChange dark) s
  = if decide (theme s = System)
    then exec (setPrefersDark dark ;; setResolvedTheme (resolvedOf System dark)) s
    else exec (setPrefersDark dark) s.
Proof.
  intros Hh. unfold mediaChange. rewrite exec_seq, exec_bind.
  destruct s as [t r rd ls pd cl ch io dr]. simpl in *. subst ch.
  by destruct t, dark.
Qed.

Lemma PreInv_mediaChange dark s : Inv p s -> PreInv p (exec (mediaChange dark) s).
Proof.
  intros (Hst & Hh & Hr & Hd & Hm). unfold stable in Hst.
  exists (theme s), (resolvedTheme s), (isOpen s).
  rewrite mediaChange_exec by done.
  destruct s as [t r rd ls pd cl ch io dr]. simpl in *.
  destruct t; simpl in *; subst r; eauto 10.
Qed.

(** A click does nothing, toggles the list, or selects an option. *)
Lemma click_cases target s :
  Inv p s ->
  exec (click p target) s = s \/
  exec (click p target) s = exec (setIsOpen (negb (isOpen s))) s \/
  exists v, exec (click p target) s
            = exec (ThemeProvider.setTheme v ;; setIsOpen false) s.
Proof.
  intros (Hst & Hh & Hr & Hd & Hm). unfold stable in Hst.
  unfold click. rewrite exec_bind. simpl. rewrite Hd, Hst.
  destruct (contains _ target); [|by left].
  destruct target as [| |[v|] i| | |v|v txt|v|n]; simpl; auto;
    destruct p; simpl; eauto; destruct v; simpl; eauto.
Qed.

Lemma handle_PreInv e s : Inv p s -> PreInv p (exec (handle p e) s).
Proof.
  intros HI. destruct e as [target|target|dark]; simpl.
  - destruct (click_cases target s HI) as [->|[->|[v ->]]].
    + by apply Inv_PreInv.
    + by apply PreInv_setIsOpen.
    + by apply PreInv_setTheme.
  - unfold handleClickOutside. rewrite exec_bind. simpl.
    destruct (dropdownRef s) as [current|]; [|by apply Inv_PreInv].
    destruct (negb _); [by apply PreInv_setIsOpen|by apply Inv_PreInv].
  - by apply PreInv_mediaChange.
Qed.

Lemma Inv_step e s : Inv p s -> Inv p (step p e s).
Proof.
  intros HI. unfold step. rewrite exec_seq.
  apply PreInv_settle; [lia|]. by apply handle_PreInv.
Qed.

Lemma reachable_Inv s : reachable p s -> Inv p s.
Proof. induction 1; [apply Inv_mount|by apply Inv_step]. Qed.

(** In a reachable state the resolved theme is the resolution of the
    preference against the current appearance of the system. *)
Lemma reachable_resolved s :
  reachable p s ->
  resolvedTheme s = resolvedTheme (exec (ThemeProvider.updateResolvedTheme (theme s)) s).
Proof.
  intros (_ & _ & Hr & _)%reachable_Inv.
  rewrite updateResolvedTheme_exec. by destruct s.
Qed.

(** An option of the open list is part of the rendered control, and a click
    on it runs its handler. *)
Lemma option_rendered ctx v :
  contains (renderPicker p ctx true) (OptionButton v) = true.
Proof. destruct ctx as [t f r]. destruct p, v, t; reflexivity. Qed.

Lemma click_option s v :
  Inv p s -> isOpen s = true ->
  exec (click p (OptionButton v)) s
  = exec (ThemeProvider.setTheme v ;; setIsOpen false) s.
Proof.
  intros (Hst & Hh & Hr & Hd & Hm) Ho. unfold stable in Hst.
  unfold click. rewrite exec_bind. simpl. rewrite Hd, Hst, Ho, option_rendered.
  destruct p, v; reflexivity.
Qed.

End Invariant.

(** ** The context *)

Lemma useContext_nearest (pre rest : list Component) value :
  Forall (fun c => c = OtherC) pre ->
  useContext (pre ++ ThemeProviderC value :: rest)%list = Some value.
Proof. induction 1 as [|c pre -> _ IH]; simpl; auto. Qed.

Lemma useContext_none ancestors :
  Forall (fun c => c = OtherC) ancestors -> useContext ancestors = None.
Proof. induction 1 as [|c pre -> _ IH]; simpl; auto. Qed.

Lemma useContext_scope ancestors :
  inProviderScope ancestors ->
  exists value, useContext ancestors = Some value /\ ThemeProviderC value ∈ ancestors.
Proof.
  intros [v Hv]. induction ancestors as [|c l IH]; [by apply elem_of_nil in Hv|].
  destruct c as [w|]; simpl.
  - exists w. split; [done|]. constructor.
  - apply elem_of_cons in Hv as [?|Hv]; [done|].
    destruct (IH Hv) as (w & ? & ?). exists w. split; [done|]. by constructor.
Qed.

(** ** Worked runs *)

(** A stored "light" under a dark system takes all three commits: the first
    shows the defaults, the second the system's dark, the third the stored
    light. *)
Example mount_takes_three_commits :
  let s0 := initial {["theme" := "light"]} true [] in
  let s1 := exec (commit Ui) s0 in
  let s2 := exec (commit Ui) s1 in
  let s3 := exec (commit Ui) s2 in
  (classList s1, classList s2, classList s3) = (["light"], ["dark"], ["light"]) /\
  ~ stable s1 /\ ~ stable s2 /\ stable s3 /\
  s3 = mount Ui {["theme" := "light"]} true [].
Proof. vm_compute. repeat split; congruence. Qed.

Example pick_system_then_os_turns_light :
  let s := run P001 [Click ToggleButton; Click (OptionLabel System "System");
                     MediaChange false]
             (mount P001 {["theme" := "light"]} true ["wide"]) in
  (theme s, resolvedTheme s, classList s, localStorage s !! "theme", isOpen s)
  = (System, RLight, ["wide"; "light"], Some "system", false).
Proof. vm_compute. reflexivity. Qed.

(** * The claims *)

(** C1. Resolution: [updateResolvedTheme], run for a theme [t] in any state,
    sets [resolvedTheme] to [t] itself when [t] is light or dark, whatever the
    dark-mode query answers, and when [t] is system to dark if the query
    answers true and to light if it answers false; the value set is never
    system. *)
Theorem resolution_rule (t : Theme) (s : App) :
  let r := resolvedTheme (exec (ThemeProvider.updateResolvedTheme t) s) in
  (t <> System -> theme_of_resolved r = t) /\
  (t = System -> r = if prefersDark s then RDark else RLight) /\
  theme_of_resolved r <> System.
Proof.
  simpl. destruct t; simpl; repeat split; try done; try by destruct (prefersDark s).
Qed.

Lemma resolution_rule_witness :
  theme_of_resolved
    (resolvedTheme (exec (ThemeProvider.updateResolvedTheme Dark) (initial ∅ false [])))
  = Dark
  /\ resolvedTheme (exec (ThemeProvider.updateResolvedTheme System) (initial ∅ true []))
     = RDark.
Proof.
  split.
  - apply (resolution_rule Dark (initial ∅ false [])). discriminate.
  - apply (resolution_rule System (initial ∅ true [])). reflexivity.
Defined.

(** C2. Initialization from storage: after the mount, [theme] is the stored
    value when the key "theme" holds the name of one of the three themes, and
    the default system when the key is absent or holds any other string. *)
Theorem restore_from_storage (p : Picker) (storage : gmap string string)
    (dark : bool) (classes : list string) :
  (forall t, storage !! "theme" = Some (theme_name t) ->
     theme (mount p storage dark classes) = t) /\
  (storage !! "theme" = None -> theme (mount p storage dark classes) = System) /\
  (forall v, storage !! "theme" = Some v -> v ∉ themeValues ->
     theme (mount p storage dark classes) = System).
Proof.
  rewrite mount_theme. repeat split.
  - intros t ->. apply restoredTheme_valid.
  - by intros ->.
  - intros v -> Hv. by apply restoredTheme_invalid.
Qed.

Lemma restore_from_storage_witness :
  theme (mount Ui {["theme" := "dark"]} false []) = Dark /\
  theme (mount Ui ∅ true []) = System /\
  theme (mount Ui {["theme" := "blue"]} true []) = System.
Proof.
  split; [|split].
  - apply (restore_from_storage Ui {["theme" := "dark"]} false []).
    apply (lookup_singleton_eq (M := gmap string)).
  - apply (restore_from_storage Ui ∅ true []). apply lookup_empty.
  - apply (restore_from_storage Ui {["theme" := "blue"]} true []) with (v := "blue").
    + apply (lookup_singleton_eq (M := gmap string)).
    + intros H. repeat (apply elem_of_cons in H as [H|H]; [discriminate|]).
      by apply elem_of_nil in H.
Defined.

(** C3. Markers on the document root: in every state reached by mounting and
    handling events, the class list of the root holds exactly one of "light"
    and "dark", namely the one of the current [resolvedTheme]; this is because
    the apply effect removes both markers and then adds the one of the
    resolved theme it was run for, whatever the class list held before. *)
Theorem one_marker_on_root (p : Picker) (s : App) :
  reachable p s ->
  exactlyOneMarker (classList s) /\
  resolved_name (resolvedTheme s) ∈ classList s /\
  (forall r s0,
     classList (exec (ThemeProvider.applyEffect r) s0)
     = classList_add (resolved_name r)
         (classList_remove ["light"; "dark"] (classList s0))
     /\ markerIs r (classList (exec (ThemeProvider.applyEffect r) s0))).
Proof.
  intros (_ & _ & _ & _ & Hm)%reachable_Inv. split; [|split].
  - by eapply markerIs_exactlyOne.
  - by apply Hm.
  - intros r s0. split; [reflexivity|]. apply applied_marker.
Qed.

Lemma one_marker_on_root_witness :
  exactlyOneMarker
    (classList (mount Ui {["theme" := "dark"]} false ["light"; "dark"; "wide"])).
Proof.
  apply (one_marker_on_root Ui
           (mount Ui {["theme" := "dark"]} false ["light"; "dark"; "wide"])).
  apply reachable_mount.
Defined.

(** C4. Appearance change of the system: in every reachable state, the
    'change' notification sets [resolvedTheme] to the new preference of the
    system when [theme] is system, and when [theme] is light or dark changes
    nothing but the answer of the media query itself. *)
Theorem os_change_notification (p : Picker) (s : App) (dark : bool) :
  reachable p s ->
  (theme s = System ->
     resolvedTheme (step p (MediaChange dark) s) = (if dark then RDark else RLight) /\
     theme (step p (MediaChange dark) s) = System) /\
  (theme s <> System ->
     step p (MediaChange dark) s = exec (setPrefersDark dark) s /\
     resolvedTheme (step p (MediaChange dark) s) = resolvedTheme s).
Proof.
  intros Hs. pose proof (reachable_Inv _ _ Hs) as HI.
  pose proof (Inv_step p (MediaChange dark) s HI) as (_ & _ & Hr' & _).
  destruct HI as (Hst & Hh & Hr & Hd & Hm). unfold stable in Hst.
  unfold step in *. rewrite exec_seq in *. simpl handle in *.
  rewrite mediaChange_exec in * by done. unfold flush in *.
  split; intros Ht.
  - rewrite decide_True in * by done.
    set (s1 := exec (setPrefersDark dark;; setResolvedTheme (resolvedOf System dark)) s)
      in *.
    assert (rendered s1 <> None) as Hm1 by (destruct s; simpl in *; by rewrite Hst).
    destruct (settle_frame p 3 s1) as (_ & Hpd & _).
    rewrite Hr', Hpd, settle_theme by done.
    replace (theme s1) with System by (by destruct s).
    replace (prefersDark s1) with dark by (by destruct s). done.
  - rewrite decide_False in * by done.
    rewrite settle_stable_id by (unfold stable; by destruct s).
    split; [reflexivity|]. by destruct s.
Qed.

Lemma os_change_notification_witness :
  resolvedTheme (step Ui (MediaChange true) (mount Ui ∅ false [])) = RDark /\
  resolvedTheme (step Ui (MediaChange true) (mount Ui {["theme" := "light"]} false []))
  = resolvedTheme (mount Ui {["theme" := "light"]} false []).
Proof.
  split.
  - apply (os_change_notification Ui (mount Ui ∅ false []) true).
    + apply reachable_mount.
    + reflexivity.
  - apply (os_change_notification Ui (mount Ui {["theme" := "light"]} false []) true).
    + apply reachable_mount.
    + vm_compute. discriminate.
Defined.

(** C5. The setter: for each of the three themes [t], one call of [setTheme t]
    sets the state cell [theme] to [t] and writes the name of [t], one of
    "light", "dark" and "system", under the storage key "theme". *)
Theorem setter_updates_and_persists (t : Theme) (s : App) :
  theme (exec (ThemeProvider.setTheme t) s) = t /\
  localStorage (exec (ThemeProvider.setTheme t) s) !! "theme" = Some (theme_name t) /\
  theme_name t ∈ themeValues.
Proof.
  split; [reflexivity|]. split.
  - unfold ThemeProvider.setTheme. rewrite exec_seq. simpl.
    apply (lookup_insert_eq (M := gmap string)).
  - destruct t; unfold themeValues; simpl; repeat constructor.
Qed.

(** C6. Selecting an option: in every reachable state whose list is open,
    each option is part of the rendered control, and a click on it calls the
    setter of the store with the value of that option and then closes the
    list; after it the [theme] is that value, the storage key "theme" holds
    its name and [isOpen] is false. The handlers of both pickers are this
    same sequence. *)
Theorem select_option_sets_and_closes (p : Picker) (s : App) (v : Theme) :
  reachable p s -> isOpen s = true ->
  (exists current, dropdownRef s = Some current /\
     contains current (OptionButton v) = true) /\
  (forall option, option ∈ ThemeToggle.themeOptions ->
     ThemeToggle.optionClick (providerValue (theme s) (resolvedTheme s)) option
     = (ThemeProvider.setTheme (ThemeToggle.value option) ;; setIsOpen false)) /\
  ThemeToggle001.handleThemeChange (providerValue (theme s) (resolvedTheme s)) v
  = (ThemeProvider.setTheme v ;; setIsOpen false) /\
  exec (handle p (Click (OptionButton v))) s
  = exec (ThemeProvider.setTheme v ;; setIsOpen false) s /\
  theme (step p (Click (OptionButton v)) s) = v /\
  localStorage (step p (Click (OptionButton v)) s) !! "theme" = Some (theme_name v) /\
  isOpen (step p (Click (OptionButton v)) s) = false.
Proof.
  intros HI%reachable_Inv Ho.
  pose proof (click_option p s v HI Ho) as Hc.
  destruct HI as (Hst & Hh & Hr & Hd & Hm). unfold stable in Hst.
  split; [|split; [|split; [|split]]].
  - eexists. split; [exact Hd|]. rewrite Ho. apply option_rendered.
  - reflexivity.
  - reflexivity.
  - exact Hc.
  - unfold step. rewrite exec_seq. simpl handle. rewrite Hc. unfold flush.
    destruct (settle_frame p 3 (exec (ThemeProvider.setTheme v;; setIsOpen false) s))
      as (-> & _ & ->).
    rewrite settle_theme.
    + split; [reflexivity|]. split; [|reflexivity].
      unfold ThemeProvider.setTheme. rewrite !exec_seq. simpl.
      apply (lookup_insert_eq (M := gmap string)).
    + destruct s. simpl in *. by rewrite Hst.
Qed.

Lemma select_option_sets_and_closes_witness :
  theme (step Ui (Click (OptionButton Dark)) openedUi) = Dark /\
  localStorage (step Ui (Click (OptionButton Dark)) openedUi) !! "theme" = Some "dark" /\
  isOpen (step Ui (Click (OptionButton Dark)) openedUi) = false.
Proof.
  assert (Hs : reachable Ui openedUi) by (apply reachable_step, reachable_mount).
  assert (Ho : isOpen openedUi = true) by reflexivity.
  pose proof (select_option_sets_and_closes Ui openedUi Dark Hs Ho) as H.
  split; [|split]; apply H.
Defined.

(** C7. Pointer down while the list is open: in every reachable state whose
    list is open, [dropdownRef] holds the rendered control; a 'mousedown'
    whose target is not inside it closes the list, and one whose target is
    inside it changes nothing, so the list is still open when the click
    handler of the target runs. *)
Theorem pointer_down_outside_closes (p : Picker) (s : App) (target : NodeId) :
  reachable p s -> isOpen s = true ->
  exists current,
    dropdownRef s = Some current /\
    current = renderPicker p (providerValue (theme s) (resolvedTheme s)) true /\
    (contains current target = false ->
       isOpen (step p (MouseDown target) s) = false) /\
    (contains current target = true ->
       step p (MouseDown target) s = s /\ isOpen (step p (MouseDown target) s) = true).
Proof.
  intros HI%reachable_Inv Ho.
  destruct HI as (Hst & Hh & Hr & Hd & Hm).
  eexists. split; [exact Hd|]. rewrite Ho. split; [reflexivity|].
  assert (Hh' : forall b,
    contains (renderPicker p (providerValue (theme s) (resolvedTheme s)) true) target = b ->
    exec (handleClickOutside target) s = if b then s else exec (setIsOpen false) s).
  { intros b Hb. unfold handleClickOutside. rewrite exec_bind. simpl.
    rewrite Hd, Ho, Hb. by destruct b. }
  split; intros Hc; unfold step; rewrite exec_seq; simpl handle;
    rewrite (Hh' _ Hc); unfold flush.
  - by destruct (settle_frame p 3 (exec (setIsOpen false) s)) as (_ & _ & ->).
  - by rewrite settle_stable_id.
Qed.

Lemma pointer_down_outside_closes_witness :
  isOpen (step P001 (MouseDown (Outside 7)) opened001) = false /\
  step P001 (MouseDown (OptionLabel Dark "Dark")) opened001 = opened001.
Proof.
  assert (Hs : reachable P001 opened001) by (apply reachable_step, reachable_mount).
  assert (Ho : isOpen opened001 = true) by reflexivity.
  destruct (pointer_down_outside_closes P001 opened001 (Outside 7) Hs Ho)
    as (c1 & _ & -> & H1 & _).
  destruct (pointer_down_outside_closes P001 opened001 (OptionLabel Dark "Dark") Hs Ho)
    as (c2 & _ & -> & _ & H2).
  split; [apply H1; reflexivity | apply H2; reflexivity].
Defined.

(** C8. The accessor: [useTheme], called where no [ThemeProvider] is among
    the ancestors, throws the error "useTheme must be used within a
    ThemeProvider"; called below a [ThemeProvider] it returns the context
    value of the nearest one and does not throw. *)
Theorem useTheme_outside_provider_throws (ancestors : list Component) :
  (~ inProviderScope ancestors ->
     useTheme ancestors = Throw "useTheme must be used within a ThemeProvider") /\
  (inProviderScope ancestors ->
     exists value, useTheme ancestors = Ok value /\
       useContext ancestors = Some value /\ ThemeProviderC value ∈ ancestors) /\
  (forall (pre rest : list Component) value,
     ancestors = (pre ++ ThemeProviderC value :: rest)%list ->
     Forall (fun c => c = OtherC) pre -> useTheme ancestors = Ok value).
Proof.
  split; [|split].
  - intros Hout. unfold useTheme. rewrite useContext_none; [done|].
    apply Forall_forall. intros [v|] Hc; [|done].
    destruct Hout. by exists v.
  - intros (v & Hv & Hin)%useContext_scope. exists v. unfold useTheme. by rewrite Hv.
  - intros pre rest value -> Hpre. unfold useTheme. by rewrite useContext_nearest.
Qed.

Lemma useTheme_outside_provider_throws_witness :
  useTheme [OtherC; OtherC] = Throw "useTheme must be used within a ThemeProvider" /\
  useTheme [OtherC; ThemeProviderC (providerValue Dark RDark); OtherC]
  = Ok (providerValue Dark RDark).
Proof.
  split.
  - apply (useTheme_outside_provider_throws [OtherC; OtherC]).
    intros [v Hv]. repeat (apply elem_of_cons in Hv as [Hv|Hv]; [discriminate|]).
    by apply elem_of_nil in Hv.
  - apply (useTheme_outside_provider_throws
             [OtherC; ThemeProviderC (providerValue Dark RDark); OtherC])
      with (pre := [OtherC]) (rest := [OtherC]).
    + reflexivity.
    + repeat constructor.
Defined.

(** C9 as stated, that the toggle button of the picker always shows the icon
    of the resolved theme, fails on the second picker: mounted with nothing
    stored under a dark system, the resolved theme is dark and the button
    shows the monitor, the icon of the preference system. *)
Lemma toggle_icon_not_always_resolved :
  reachable P001 (mount P001 ∅ true []) /\
  theme (mount P001 ∅ true []) = System /\
  resolvedTheme (mount P001 ∅ true []) = RDark /\
  dropdownRef (mount P001 ∅ true []) ≫= toggleIcon = Some Monitor /\
  iconOf (theme_of_resolved RDark) = Moon /\
  ~ (forall p s, reachable p s ->
       dropdownRef s ≫= toggleIcon = Some (iconOf (theme_of_resolved (resolvedTheme s)))).
Proof.
  split; [apply reachable_mount|]. do 4 (split; [reflexivity|]).
  intros H. specialize (H P001 (mount P001 ∅ true []) (reachable_mount _ _ _ _)).
  vm_compute in H. discriminate.
Qed.

(** C9, amended. In every reachable state the toggle button of the picker of
    src/components/ui/ThemeToggle.tsx shows the icon of the resolved theme
    (moon for dark, sun for light), and the toggle button of the second
    picker shows the icon of the preference [theme] (sun, moon or monitor). *)
Theorem toggle_icon_per_picker (p : Picker) (s : App) :
  reachable p s ->
  dropdownRef s ≫= toggleIcon
  = Some (match p with
          | Ui => iconOf (theme_of_resolved (resolvedTheme s))
          | P001 => iconOf (theme s)
          end).
Proof.
  intros (_ & _ & _ & -> & _)%reachable_Inv. simpl.
  destruct p; simpl.
  - unfold ThemeToggle.currentIcon. simpl. by destruct (resolvedTheme s).
  - unfold ThemeToggle001.getIcon. simpl. by destruct (theme s).
Qed.

Lemma toggle_icon_per_picker_witness :
  dropdownRef (mount Ui ∅ true []) ≫= toggleIcon = Some Moon /\
  dropdownRef (mount P001 ∅ true []) ≫= toggleIcon = Some Monitor.
Proof.
  split.
  - rewrite (toggle_icon_per_picker Ui (mount Ui ∅ true [])); [reflexivity|].
    apply reachable_mount.
  - rewrite (toggle_icon_per_picker P001 (mount P001 ∅ true [])); [reflexivity|].
    apply reachable_mount.
Defined.

(** C10. Before the restore effect: whatever is stored, the provider starts
    with [theme] system and [resolvedTheme] light, and these are the values
    of its first render, which puts the marker "light" on the root; a stored
    light or dark is in the state cell only after the restore effect of that
    first commit and is what the mount settles on, in [theme] and in
    [resolvedTheme]. *)
Theorem initial_state_before_restore (p : Picker) (storage : gmap string string)
    (dark : bool) (classes : list string) :
  theme (initial storage dark classes) = System /\
  resolvedTheme (initial storage dark classes) = RLight /\
  rendered (firstCommit p storage dark classes) = Some (System, RLight, false) /\
  markerIs RLight (classList (firstCommit p storage dark classes)) /\
  (forall t, storage !! "theme" = Some (theme_name t) -> t <> System ->
     theme (firstCommit p storage dark classes) = t /\
     theme (mount p storage dark classes) = t /\
     theme_of_resolved (resolvedTheme (mount p storage dark classes)) = t).
Proof.
  split; [done|]. split; [done|].
  unfold firstCommit. rewrite commit_committed. unfold committed. simpl.
  split; [done|]. split; [apply applied_marker|].
  intros t Hsaved Ht. rewrite Hsaved, restoredTheme_valid. split; [done|].
  pose proof (Inv_mount p storage dark classes) as (_ & _ & Hr & _).
  rewrite Hr, mount_theme, Hsaved, restoredTheme_valid.
  split; [done|]. by destruct t.
Qed.

Lemma initial_state_before_restore_witness :
  resolvedTheme (initial {["theme" := "dark"]} false []) = RLight /\
  theme_of_resolved (resolvedTheme (mount Ui {["theme" := "dark"]} false [])) = Dark.
Proof.
  destruct (initial_state_before_restore Ui {["theme" := "dark"]} false [])
    as (_ & H1 & _ & _ & H2).
  split; [exact H1|]. apply (H2 Dark).
  - apply (lookup_singleton_eq (M := gmap string)).
  - discriminate.
Defined.

(** * Further properties of the code *)


Lemma handle_handled p e s : Inv p s -> handled s (exec (handle p e) s).
Proof.
  intros HI. unfold handled. destruct e as [target|target|dark]; simpl.
  - destruct (click_cases p target s HI) as [->|[->|[v ->]]]; eauto 6.
  - unfold handleClickOutside. rewrite exec_bind. simpl.
    destruct (dropdownRef s) as [current|]; [|by left].
    destruct (negb _); eauto.
  - destruct HI as (_ & Hh & _). rewrite mediaChange_exec by done.
    case_decide; eauto 10.
Qed.

Lemma handled_frame s s' :
  handled s s' ->
  rendered s' = rendered s /\ classList s' = classList s /\
  changeHandler s' = changeHandler s /\ dropdownRef s' = dropdownRef s.
Proof.
  intros [->|[[b ->]|[[v ->]|[[d [_ ->]]|[d [_ ->]]]]]]; by destruct s.
Qed.

Lemma handled_storage s s' :
  handled s s' ->
  (theme s' = theme s /\ localStorage s' = localStorage s) \/
  (exists v, theme s' = v /\ localStorage s' = <["theme" := theme_name v]> (localStorage s)).
Proof.
  intros [->|[[b ->]|[[v ->]|[[d [_ ->]]|[d [_ ->]]]]]]; destruct s; simpl; eauto.
Qed.

Lemma flush_frame p s :
  localStorage (exec (flush p) s) = localStorage s /\
  prefersDark (exec (flush p) s) = prefersDark s /\
  isOpen (exec (flush p) s) = isOpen s.
Proof. apply settle_frame. Qed.

Lemma step_storage p e s :
  Inv p s ->
  (theme (step p e s) = theme s /\ localStorage (step p e s) = localStorage s) \/
  (exists v, theme (step p e s) = v /\
     localStorage (step p e s) = <["theme" := theme_name v]> (localStorage s)).
Proof.
  intros HI. pose proof (handle_handled p e s HI) as Hh.
  pose proof (handled_frame _ _ Hh) as (Hrd & _).
  destruct HI as (Hst & _). unfold stable in Hst.
  unfold step. rewrite exec_seq. unfold flush.
  destruct (settle_frame p 3 (exec (handle p e) s)) as (-> & _ & _).
  rewrite settle_theme by (rewrite Hrd, Hst; done).
  by apply handled_storage.
Qed.

(** X1. Reload: in every reachable state the stored value is one the restore
    effect reads back as the current [theme], so mounting again on the storage
    as it is now (with either picker, under any system appearance) starts
    with the preference the user last had. *)
Theorem reload_restores_preference (p q : Picker) (s : App) (dark : bool)
    (classes : list string) :
  reachable p s -> theme (mount q (localStorage s) dark classes) = theme s.
Proof.
  intros Hs. rewrite mount_theme. induction Hs as [storage d cl|e s Hs IH].
  - rewrite mount_theme. unfold mount, flush.
    by destruct (settle_frame p 3 (initial storage d cl)) as (-> & _ & _).
  - destruct (step_storage p e s (reachable_Inv _ _ Hs)) as [[-> ->]|(v & -> & ->)];
      [done|].
    rewrite (lookup_insert_eq (M := gmap string)). apply restoredTheme_valid.
Qed.

Lemma reload_restores_preference_witness :
  theme (mount P001 (localStorage (step Ui (Click (OptionButton Dark)) openedUi)) true [])
  = Dark.
Proof.
  rewrite (reload_restores_preference Ui P001
             (step Ui (Click (OptionButton Dark)) openedUi) true []); [reflexivity|].
  do 2 apply reachable_step. apply reachable_mount.
Defined.

(** X2. Mounting reads the storage and never writes it: a missing or invalid
    value under "theme" is left as it is; the list starts closed. *)
Theorem mount_never_writes_storage (p : Picker) (storage : gmap string string)
    (dark : bool) (classes : list string) :
  localStorage (mount p storage dark classes) = storage /\
  prefersDark (mount p storage dark classes) = dark /\
  isOpen (mount p storage dark classes) = false.
Proof. unfold mount. apply (flush_frame p (initial storage dark classes)). Qed.

(** X3. Events write nothing but the key "theme": every other key keeps its
    value, the storage changes only so that "theme" holds the name of the new
    [theme], and pointer-down and appearance events do not write at all. *)
Theorem events_write_only_theme_key (p : Picker) (e : Event) (s : App) :
  reachable p s ->
  (forall key, key <> "theme" ->
     localStorage (step p e s) !! key = localStorage s !! key) /\
  (localStorage (step p e s) = localStorage s \/
   localStorage (step p e s) !! "theme" = Some (theme_name (theme (step p e s)))) /\
  match e with
  | Click _ => True
  | MouseDown _ | MediaChange _ => localStorage (step p e s) = localStorage s
  end.
Proof.
  intros HI%reachable_Inv.
  split; [|split].
  - intros key Hk. destruct (step_storage p e s HI) as [[_ ->]|(v & _ & ->)]; [done|].
    by apply (lookup_insert_ne (M := gmap string)).
  - destruct (step_storage p e s HI) as [[_ ->]|(v & -> & ->)]; [by left|right].
    apply (lookup_insert_eq (M := gmap string)).
  - unfold step. destruct e as [target|target|dark]; [done| |];
      rewrite exec_seq;
      [destruct (flush_frame p (exec (handle p (MouseDown target)) s)) as (-> & _)
      |destruct (flush_frame p (exec (handle p (MediaChange dark)) s)) as (-> & _)];
      simpl handle.
    + unfold handleClickOutside. rewrite exec_bind. simpl.
      destruct (dropdownRef s); [|done]. by destruct (negb _), s.
    + destruct HI as (_ & Hh & _). rewrite mediaChange_exec by done.
      by case_decide; destruct s.
Qed.

Lemma events_write_only_theme_key_witness :
  localStorage (step Ui (MouseDown (Outside 1)) openedUi) = localStorage openedUi /\
  localStorage (step Ui (Click (OptionButton Dark)) openedUi) !! "lang"
  = localStorage openedUi !! "lang".
Proof.
  assert (Hs : reachable Ui openedUi) by (apply reachable_step, reachable_mount).
  split.
  - exact (proj2 (proj2 (events_write_only_theme_key Ui (MouseDown (Outside 1))
                           openedUi Hs))).
  - apply (events_write_only_theme_key Ui (Click (OptionButton Dark)) openedUi Hs).
    discriminate.
Defined.

Lemma classList_remove_idem tokens cl :
  classList_remove tokens (classList_remove tokens cl) = classList_remove tokens cl.
Proof.
  unfold classList_remove. induction cl as [|c cl IH]; [done|].
  rewrite (filter_cons _ c cl). case_decide as Hc; [|done].
  rewrite (filter_cons _ c (filter _ cl)), decide_True by done. by rewrite IH.
Qed.

Lemma applied_eq r cl :
  applied r cl = (classList_remove ["light"; "dark"] cl ++ [resolved_name r])%list.
Proof.
  unfold applied, classList_add. rewrite decide_False; [done|].
  unfold classList_remove. intros [Hn _]%list_elem_of_filter.
  apply Hn, resolved_name_marker.
Qed.

Lemma applied_applied r r' cl : applied r' (applied r cl) = applied r' cl.
Proof.
  rewrite !applied_eq. f_equal. unfold classList_remove at 1.
  rewrite filter_app, (filter_cons _ (resolved_name r) []), decide_False.
  - rewrite filter_nil, app_nil_r. apply classList_remove_idem.
  - intros Hn. apply Hn, resolved_name_marker.
Qed.

Lemma ClassesPre_committed p classes s :
  ClassesPre classes s -> ClassesPre classes (committed p s).
Proof.
  intros (t0 & r0 & o0 & Hrd & Hcl). unfold committed. rewrite Hrd.
  eexists _, _, _. simpl. split; [reflexivity|].
  case_decide; [by subst|]. rewrite Hcl, <- applied_eq, applied_applied.
  apply applied_eq.
Qed.

Lemma ClassesPre_settle p classes n s :
  ClassesPre classes s -> stable (exec (settle p n) s) ->
  classList (exec (settle p n) s)
  = (classList_remove ["light"; "dark"] classes
     ++ [resolved_name (resolvedTheme (exec (settle p n) s))])%list.
Proof.
  revert s. induction n as [|n IH]; intros s HP.
  - simpl. intros Hst. destruct HP as (t0 & r0 & o0 & Hrd & Hcl).
    unfold exec, stable in *. simpl in *. rewrite Hrd in Hst. by simplify_eq.
  - rewrite settle_S. case_decide as Hst.
    + intros _. destruct HP as (t0 & r0 & o0 & Hrd & Hcl).
      unfold stable in Hst. rewrite Hrd in Hst. by simplify_eq.
    + rewrite commit_committed. by apply IH, ClassesPre_committed.
Qed.

Lemma rootClasses_mount p storage dark classes :
  rootClasses p classes (mount p storage dark classes).
Proof.
  split; [apply Inv_mount|]. unfold mount, flush.
  rewrite settle_S, decide_False by done. rewrite commit_committed.
  apply ClassesPre_settle.
  - exists System, RLight, false. split; [done|]. simpl. apply applied_eq.
  - rewrite <- commit_committed.
    pose proof (flush_stable p (initial storage dark classes)) as H.
    unfold flush in H. by rewrite settle_S, decide_False in H.
Qed.

Lemma rootClasses_step p classes e s :
  rootClasses p classes s -> rootClasses p classes (step p e s).
Proof.
  intros [HI Hcl]. split; [by apply Inv_step|].
  pose proof (handled_frame _ _ (handle_handled p e s HI)) as (Hrd & Hc & _).
  unfold step. rewrite exec_seq. apply ClassesPre_settle; [|apply flush_stable].
  destruct HI as (Hst & _). unfold stable in Hst.
  exists (theme s), (resolvedTheme s), (isOpen s). by rewrite Hrd, Hc.
Qed.

Lemma rootClasses_run p classes es s :
  rootClasses p classes s -> rootClasses p classes (run p es s).
Proof.
  revert s. induction es as [|e es IH]; intros s Hs; [done|].
  simpl. by apply IH, rootClasses_step.
Qed.

(** X4. After the mount and any sequence of events the class list of the
    root is the classes the document had, without "light" and "dark", in
    their order, followed by the marker of the current [resolvedTheme]: other
    classes are never dropped or reordered. *)
Theorem root_classes_kept (p : Picker) (storage : gmap string string) (dark : bool)
    (classes : list string) (es : list Event) :
  classList (run p es (mount p storage dark classes))
  = (classList_remove ["light"; "dark"] classes
     ++ [resolved_name (resolvedTheme (run p es (mount p storage dark classes)))])%list.
Proof. apply rootClasses_run, rootClasses_mount. Qed.

(** X5. Applying twice: the apply effect run for [r] and then for [r'] leaves
    the class list that the run for [r'] alone leaves; in particular it is
    idempotent. *)
Theorem apply_last_wins (r r' : ResolvedTheme) (s : App) :
  classList (exec (ThemeProvider.applyEffect r ;; ThemeProvider.applyEffect r') s)
  = classList (exec (ThemeProvider.applyEffect r') s) /\
  classList (exec (ThemeProvider.applyEffect r ;; ThemeProvider.applyEffect r) s)
  = classList (exec (ThemeProvider.applyEffect r) s).
Proof. rewrite !exec_seq. split; apply applied_applied. Qed.

(** X6. Two calls of the setter in a row leave the state of the last call
    alone: state cell and stored value are those of the last theme set. *)
Theorem setTheme_last_wins (t u : Theme) (s : App) :
  exec (ThemeProvider.setTheme t ;; ThemeProvider.setTheme u) s
  = exec (ThemeProvider.setTheme u) s.
Proof.
  unfold ThemeProvider.setTheme. rewrite !exec_seq. destruct s.
  unfold exec, setThemeState, localStorage_setItem, modify. simpl.
  f_equal. apply (insert_insert_eq (M := gmap string)).
Qed.

Lemma handle_mounted p e s : Inv p s -> rendered (exec (handle p e) s) = rendered s.
Proof. intros Hh%(handle_handled p e). by apply handled_frame in Hh as (-> & _). Qed.

Lemma step_theme_handled p e s :
  Inv p s ->
  theme (step p e s) = theme (exec (handle p e) s) /\
  prefersDark (step p e s) = prefersDark (exec (handle p e) s) /\
  isOpen (step p e s) = isOpen (exec (handle p e) s) /\
  localStorage (step p e s) = localStorage (exec (handle p e) s).
Proof.
  intros HI. pose proof (handle_mounted p e s HI) as Hrd.
  destruct HI as (Hst & _). unfold stable in Hst.
  unfold step. rewrite exec_seq. unfold flush.
  destruct (settle_frame p 3 (exec (handle p e) s)) as (-> & -> & ->).
  rewrite settle_theme by (rewrite Hrd, Hst; done). done.
Qed.

(** X7. Selecting an option of the open list, once rendered: light or dark
    becomes the resolved theme whatever the system prefers, system resolves to
    the current preference of the system; the marker on the root is the one of
    the new resolved theme and the registered 'change' handler is the one
    closed over the selected theme. *)
Theorem selecting_resolves_and_applies (p : Picker) (s : App) (v : Theme) :
  reachable p s -> isOpen s = true ->
  (v <> System ->
     theme_of_resolved (resolvedTheme (step p (Click (OptionButton v)) s)) = v) /\
  (v = System ->
     resolvedTheme (step p (Click (OptionButton v)) s)
     = if prefersDark s then RDark else RLight) /\
  markerIs (resolvedTheme (step p (Click (OptionButton v)) s))
    (classList (step p (Click (OptionButton v)) s)) /\
  changeHandler (step p (Click (OptionButton v)) s) = Some v.
Proof.
  intros HI%reachable_Inv Ho.
  pose proof (Inv_step p (Click (OptionButton v)) s HI) as (_ & Hh' & Hr' & _ & Hm').
  destruct (step_theme_handled p (Click (OptionButton v)) s HI) as (Ht & Hpd & _).
  simpl handle in *. rewrite click_option in * by done.
  assert (theme (step p (Click (OptionButton v)) s) = v) as Htv
    by (rewrite Ht; by destruct s).
  assert (prefersDark (step p (Click (OptionButton v)) s) = prefersDark s) as Hpv
    by (rewrite Hpd; by destruct s).
  split; [|split; [|split]].
  - intros Hv. rewrite Hr', Htv. by destruct v.
  - intros ->. by rewrite Hr', Htv, Hpv.
  - exact Hm'.
  - by rewrite Hh', Htv.
Qed.

Lemma selecting_resolves_and_applies_witness :
  theme_of_resolved (resolvedTheme (step Ui (Click (OptionButton Light)) openedUi)) = Light.
Proof.
  apply (selecting_resolves_and_applies Ui openedUi Light).
  - apply reachable_step, reachable_mount.
  - reflexivity.
  - discriminate.
Defined.



(** X9. In every reachable state [resolvedTheme] is determined by [theme] and
    the current answer of the media query: light and dark as chosen, system
    by the query. *)
Theorem resolved_follows_preference (p : Picker) (s : App) :
  reachable p s ->
  resolvedTheme s
  = match theme s with
    | System => if prefersDark s then RDark else RLight
    | Light => RLight
    | Dark => RDark
    end.
Proof. by intros (_ & _ & Hr & _)%reachable_Inv. Qed.

Lemma resolved_follows_preference_witness :
  resolvedTheme (step Ui (MediaChange true) (mount Ui ∅ false [])) = RDark.
Proof.
  rewrite (resolved_follows_preference Ui
             (step Ui (MediaChange true) (mount Ui ∅ false []))); [reflexivity|].
  apply reachable_step, reachable_mount.
Defined.

(** X10. The effects cannot re-render forever: from any state the render loop
    is stable after at most three commits, after at most two once mounted,
    and further fuel changes nothing. *)
Theorem render_loop_terminates (p : Picker) (n : nat) (s : App) :
  (3 <= n ->
     stable (exec (settle p n) s) /\ exec (settle p n) s = exec (settle p 3) s) /\
  (2 <= n -> rendered s <> None ->
     stable (exec (settle p n) s) /\ exec (settle p n) s = exec (settle p 2) s).
Proof.
  split.
  - intros Hn. split; [by apply settle_stable|by apply settle_fuel].
  - intros Hn Hs. destruct n as [|[|n]]; try lia.
    rewrite !settle_S. case_decide; [done|]. case_decide; [done|].
    rewrite !commit_committed in *.
    assert (stable (committed p (committed p s))) as Hst
      by by apply committed_stable, committed_themeSettled.
    rewrite settle_stable_id by done. done.
Qed.

Lemma render_loop_terminates_witness :
  stable (exec (settle Ui 5) (initial {["theme" := "light"]} true [])) /\
  stable (exec (settle Ui 2) openedUi).
Proof.
  split.
  - destruct (render_loop_terminates Ui 5 (initial {["theme" := "light"]} true []))
      as [H _]. apply H. lia.
  - destruct (render_loop_terminates Ui 2 openedUi) as [_ H]. apply H; [lia|].
    vm_compute. discriminate.
Defined.

Lemma toggle_rendered p ctx o : contains (renderPicker p ctx o) ToggleButton = true.
Proof. by destruct p. Qed.

Lemma click_toggle p s :
  Inv p s ->
  exec (click p ToggleButton) s = exec (setIsOpen (negb (isOpen s))) s.
Proof.
  intros (Hst & Hh & Hr & Hd & Hm). unfold stable in Hst.
  unfold click. rewrite exec_bind. simpl. by rewrite Hd, Hst, toggle_rendered.
Qed.

(** The renders after a change of [isOpen] alone. *)
Lemma flush_setIsOpen p b s :
  Inv p s ->
  exec (flush p) (exec (setIsOpen b) s)
  = mkApp (theme s) (resolvedTheme s) (Some (theme s, resolvedTheme s, b))
      (localStorage s) (prefersDark s) (classList s) (changeHandler s) b
      (Some (renderPicker p (providerValue (theme s) (resolvedTheme s)) b)).
Proof.
  intros (Hst & Hh & Hr & Hd & Hm). unfold stable in Hst. unfold flush.
  rewrite settle_S. case_decide as Hs.
  - unfold stable in Hs. destruct s as [t r rd ls pd cl ch io dr].
    simpl in *. by simplify_eq.
  - rewrite commit_committed. rewrite settle_stable_id.
    + unfold committed. destruct s as [t r rd ls pd cl ch io dr].
      simpl in *. subst rd. by rewrite !decide_True.
    + apply committed_stable. exists (resolvedTheme s), (isOpen s).
      by destruct s.
Qed.

(** X11. The toggle button: a click on it flips [isOpen] and leaves theme,
    resolved theme, storage and root classes alone; a second click restores
    the state exactly. *)
Theorem toggle_button_flips (p : Picker) (s : App) :
  reachable p s ->
  isOpen (step p (Click ToggleButton) s) = negb (isOpen s) /\
  theme (step p (Click ToggleButton) s) = theme s /\
  resolvedTheme (step p (Click ToggleButton) s) = resolvedTheme s /\
  localStorage (step p (Click ToggleButton) s) = localStorage s /\
  classList (step p (Click ToggleButton) s) = classList s /\
  step p (Click ToggleButton) (step p (Click ToggleButton) s) = s.
Proof.
  intros HI%reachable_Inv.
  pose proof (Inv_step p (Click ToggleButton) s HI) as HI'.
  assert (step p (Click ToggleButton) s
          = mkApp (theme s) (resolvedTheme s)
              (Some (theme s, resolvedTheme s, negb (isOpen s)))
              (localStorage s) (prefersDark s) (classList s) (changeHandler s)
              (negb (isOpen s))
              (Some (renderPicker p (providerValue (theme s) (resolvedTheme s))
                       (negb (isOpen s))))) as Hstep.
  { unfold step. rewrite exec_seq. simpl handle.
    rewrite click_toggle by done. by apply flush_setIsOpen. }
  repeat (split; [by rewrite Hstep|]).
  unfold step at 1. rewrite exec_seq. simpl handle.
  rewrite click_toggle, flush_setIsOpen by done. rewrite Hstep. simpl.
  rewrite negb_involutive.
  destruct HI as (Hst & Hh & Hr & Hd & Hm). unfold stable in Hst.
  destruct s; simpl in *. by subst.
Qed.

Lemma toggle_button_flips_witness :
  step Ui (Click ToggleButton) openedUi = mount Ui ∅ false [].
Proof.
  apply (toggle_button_flips Ui (mount Ui ∅ false [])). apply reachable_mount.
Defined.

(** X12. A pointer-down, wherever it lands, leaves theme, resolved theme,
    storage, root classes and the 'change' handler alone; while the list is
    closed it changes nothing at all. *)
Theorem mousedown_leaves_store (p : Picker) (s : App) (target : NodeId) :
  reachable p s ->
  theme (step p (MouseDown target) s) = theme s /\
  resolvedTheme (step p (MouseDown target) s) = resolvedTheme s /\
  localStorage (step p (MouseDown target) s) = localStorage s /\
  classList (step p (MouseDown target) s) = classList s /\
  changeHandler (step p (MouseDown target) s) = changeHandler s /\
  (isOpen s = false -> step p (MouseDown target) s = s).
Proof.
  intros HI%reachable_Inv.
  assert (step p (MouseDown target) s = s \/
          step p (MouseDown target) s = exec (flush p) (exec (setIsOpen false) s)) as Hc.
  { unfold step. rewrite exec_seq. simpl handle.
    unfold handleClickOutside. rewrite exec_bind. simpl.
    destruct HI as (Hst & _).
    destruct (dropdownRef s) as [current|].
    - destruct (negb _); [by right|left; by apply settle_stable_id].
    - left. by apply settle_stable_id. }
  rewrite flush_setIsOpen in Hc by done.
  destruct Hc as [->| ->]; simpl; repeat (split; [done|]).
  - done.
  - intros Ho. destruct HI as (Hst & Hh & Hr & Hd & Hm). unfold stable in Hst.
    destruct s; simpl in *. by subst.
Qed.

Lemma mousedown_leaves_store_witness :
  step Ui (MouseDown (Outside 0)) (mount Ui ∅ false []) = mount Ui ∅ false [].
Proof.
  apply (mousedown_leaves_store Ui (mount Ui ∅ false []) (Outside 0)).
  - apply reachable_mount.
  - reflexivity.
Defined.

Lemma closed_shows_toggle_only p ctx target :
  contains (renderPicker p ctx false) target = true ->
  target = RootDiv \/ target = ToggleButton \/ exists i, target = IconSvg None i.
Proof.
  destruct p; simpl; rewrite !orb_false_r;
    intros [H|[H|H]%orb_prop]%orb_prop; apply bool_decide_eq_true in H; eauto.
Qed.

(** X13. While the list is closed the control shows only the toggle button
    and its icon: a click on anything else, an option included, changes
    nothing. *)
Theorem closed_list_ignores_options (p : Picker) (s : App) (target : NodeId) :
  reachable p s -> isOpen s = false ->
  target <> ToggleButton -> (forall i, target <> IconSvg None i) ->
  step p (Click target) s = s.
Proof.
  intros HI%reachable_Inv Ho Hb Hi.
  destruct HI as (Hst & Hh & Hr & Hd & Hm).
  unfold step. rewrite exec_seq. simpl handle.
  assert (exec (click p target) s = s) as ->; [|by apply settle_stable_id].
  unfold click. rewrite exec_bind. simpl. unfold stable in Hst. rewrite Hd, Hst, Ho.
  destruct (contains _ target) eqn:Hc; [|done].
  apply closed_shows_toggle_only in Hc as [->|[->|[i ->]]]; [done|done|].
  by destruct (Hi i).
Qed.

Lemma closed_list_ignores_options_witness :
  step P001 (Click (OptionButton Dark)) (mount P001 {["theme" := "light"]} true [])
  = mount P001 {["theme" := "light"]} true [].
Proof.
  apply (closed_list_ignores_options P001); [apply reachable_mount|reflexivity|done|done].
Defined.

(** X14. The check mark: the picker of src/components/ui/ThemeToggle.tsx
    shows the check mark of an option exactly when the list is open and the
    option is the preference [theme] (not the resolved theme); the second
    picker shows no check mark. *)
Theorem check_mark_on_preference (p : Picker) (s : App) (v : Theme) :
  reachable p s ->
  exists current,
    dropdownRef s = Some current /\
    contains current (OptionCheck v)
    = match p with
      | Ui => isOpen s && bool_decide (theme s = v)
      | P001 => false
      end.
Proof.
  intros (_ & _ & _ & Hd & _)%reachable_Inv.
  eexists. split; [exact Hd|].
  destruct p, (isOpen s), (theme s), v, (resolvedTheme s); reflexivity.
Qed.

Lemma check_mark_on_preference_witness :
  exists current,
    dropdownRef openedUi = Some current /\
    contains current (OptionCheck System) = true /\
    contains current (OptionCheck Light) = false.
Proof.
  destruct (check_mark_on_preference Ui openedUi System) as (c & Hc & H1);
    [apply reachable_step, reachable_mount|].
  destruct (check_mark_on_preference Ui openedUi Light) as (c' & Hc' & H2);
    [apply reachable_step, reachable_mount|].
  exists c. split; [exact Hc|]. split; [exact H1|].
  rewrite Hc in Hc'. injection Hc' as <-. exact H2.
Defined.

(** X15. A picker rendered where no [ThemeProvider] is among its ancestors
    throws the error of [useTheme]; below a provider its first render is the
    toggle button alone, with the icon its source picks from the value of the
    nearest provider. *)
Theorem picker_needs_provider (p : Picker) (ancestors : list Component) :
  (~ inProviderScope ancestors ->
     mountPicker p ancestors = Throw "useTheme must be used within a ThemeProvider") /\
  (forall (pre rest : list Component) t r,
     ancestors = (pre ++ ThemeProviderC (providerValue t r) :: rest)%list ->
     Forall (fun c => c = OtherC) pre ->
     mountPicker p ancestors
     = Ok (El RootDiv
             [El ToggleButton
                [El (IconSvg None
                       (match p with
                        | Ui => iconOf (theme_of_resolved r)
                        | P001 => iconOf t
                        end)) []]])).
Proof.
  unfold mountPicker, useTheme. split.
  - intros Hout. rewrite useContext_none; [done|].
    apply Forall_forall. intros [v|] Hc; [|done].
    destruct Hout. by exists v.
  - intros pre rest t r -> Hpre. rewrite useContext_nearest by done.
    by destruct p, t, r.
Qed.

Lemma picker_needs_provider_witness :
  mountPicker Ui [OtherC] = Throw "useTheme must be used within a ThemeProvider" /\
  mountPicker P001 [OtherC; ThemeProviderC (providerValue System RDark)]
  = Ok (El RootDiv [El ToggleButton [El (IconSvg None Monitor) []]]).
Proof.
  split.
  - apply (picker_needs_provider Ui [OtherC]).
    intros [v Hv]. apply elem_of_cons in Hv as [Hv|Hv]; [discriminate|].
    by apply elem_of_nil in Hv.
  - destruct (picker_needs_provider P001
                [OtherC; ThemeProviderC (providerValue System RDark)]) as [_ H].
    apply (H [OtherC] [] System RDark); [reflexivity|repeat constructor].
Defined.

(** X16. After an appearance change of the system the marker on the root is
    the one of the new appearance when the preference is system, and the one
    of the chosen theme otherwise. *)
Theorem marker_follows_os_change (p : Picker) (s : App) (dark : bool) :
  reachable p s ->
  markerIs
    (match theme s with
     | System => if dark then RDark else RLight
     | Light => RLight
     | Dark => RDark
     end)
    (classList (step p (MediaChange dark) s)).
Proof.
  intros HI%reachable_Inv.
  pose proof (Inv_step p (MediaChange dark) s HI) as (_ & _ & Hr' & _ & Hm').
  destruct (step_theme_handled p (MediaChange dark) s HI) as (Ht & Hpd & _).
  simpl handle in *. destruct HI as (_ & Hh & _).
  rewrite mediaChange_exec in * by done.
  rewrite Hr', Ht, Hpd in Hm'.
  case_decide as Hsys; destruct s as [t r rd ls pd cl ch io dr]; simpl in *.
  - by subst t.
  - by destruct t.
Qed.

Lemma marker_follows_os_change_witness :
  markerIs RDark (classList (step Ui (MediaChange true) (mount Ui ∅ false ["wide"]))).
Proof.
  exact (marker_follows_os_change Ui (mount Ui ∅ false ["wide"]) true
           (reachable_mount Ui ∅ false ["wide"])).
Defined.

(** X17. After the provider unmounts, an appearance change of the system
    only changes the answer of the media query: resolved theme, storage and
    root classes stay, and the root keeps its one marker. *)
Theorem unmount_stops_listening (p : Picker) (s : App) (dark : bool) :
  reachable p s ->
  exec (unmount ;; mediaChange dark) s = exec (unmount ;; setPrefersDark dark) s /\
  resolvedTheme (exec (unmount ;; mediaChange dark) s) = resolvedTheme s /\
  classList (exec (unmount ;; mediaChange dark) s) = classList s /\
  localStorage (exec (unmount ;; mediaChange dark) s) = localStorage s /\
  exactlyOneMarker (classList (exec (unmount ;; mediaChange dark) s)).
Proof.
  intros (_ & _ & _ & _ & Hm)%reachable_Inv.
  assert (exec (unmount ;; mediaChange dark) s
          = exec (unmount ;; setPrefersDark dark) s) as ->.
  { unfold unmount, ThemeProvider.resolveCleanup, mediaChange.
    rewrite !exec_seq, exec_bind. by destruct s. }
  split; [done|]. rewrite !exec_seq.
  repeat (split; [by destruct s|]).
  apply markerIs_exactlyOne in Hm. by destruct s.
Qed.

Lemma unmount_stops_listening_witness :
  resolvedTheme (exec (unmount ;; mediaChange true) (mount Ui ∅ false []))
  = resolvedTheme (mount Ui ∅ false []).
Proof.
  apply (unmount_stops_listening Ui (mount Ui ∅ false []) true).
  apply reachable_mount.
Defined.

(** X18. From the first commit on, every single commit, the intermediate
    ones of the render loop included, leaves exactly one of "light" and
    "dark" on the root, whatever the document held before the mount. *)
Theorem every_commit_keeps_one_marker (p : Picker) (n : nat) (s : App) :
  rendered s = None \/ exactlyOneMarker (classList s) ->
  exactlyOneMarker (classList (Nat.iter (S n) (exec (commit p)) s)).
Proof.
  intros Hs. induction n as [|n IH].
  - simpl. by apply commit_marker.
  - change (Nat.iter (S (S n)) (exec (commit p)) s)
      with (exec (commit p) (Nat.iter (S n) (exec (commit p)) s)).
    apply commit_marker. by right.
Qed.

Lemma every_commit_keeps_one_marker_witness :
  exactlyOneMarker
    (classList (Nat.iter 2 (exec (commit Ui))
                  (initial {["theme" := "light"]} true ["light"; "dark"]))).
Proof.
  apply (every_commit_keeps_one_marker Ui 1
           (initial {["theme" := "light"]} true ["light"; "dark"])).
  by left.
Defined.
